(** * CarModel: the receding-horizon executor of [mpc_view/view/scene/items/car.py]

    A shallow embedding of class [CarModel]: the scene items that hold the
    vehicle's pose and geometry, the geometry accessors, [rebuild_mpc],
    [predict] and [move].

    Conventions of the embedding.
    - Python floats are modelled by the real numbers [R]; [math.radians] and
      [math.degrees] are the multiplications by [PI / 180] and [180 / PI].
    - A Qt item is a record of the attributes the class reads and writes
      (rectangle, position in the parent's frame, rotation in degrees).
      Pens, brushes and item flags carry no behaviour and are left out.
    - Python exceptions are values of [exn]; a call either returns ([Ok]) or
      raises ([Raise]).
    - The packages [mpc.mpc_casadi] and [mpc.mpc_back_box] are imported by the
      file but are not part of it.  [move] and [predict] are therefore stated
      in a section over the solver entry point [optimize_controls] and the
      kinematic model [trailer_model]. *)

From Stdlib Require Import Reals Lra Lia List String ZArith.
Import ListNotations.
Open Scope R_scope.

(** ** Exceptions and results *)

Inductive exn : Type :=
| ValueError (msg : string)
| IndexError (msg : string)
| OtherError (msg : string).

Inductive result (A : Type) : Type :=
| Ok (a : A)
| Raise (e : exn).
Arguments Ok {A} a.
Arguments Raise {A} e.

(** ** [math.radians], [math.degrees] *)

Definition radians (x : R) : R := x * (PI / 180).
Definition degrees (x : R) : R := x * (180 / PI).

(** ** Qt geometry and items *)

Module Qt.

Record QPointF : Type := mkPoint { x : R; y : R }.

(** [QRectF(left, top, width, height)]. *)
Record QRectF : Type := mkRect { left : R; top : R; width : R; height : R }.

Definition setWidth (w : R) (r : QRectF) : QRectF :=
  mkRect (left r) (top r) w (height r).

(** The attributes of a [QGraphicsRectItem] / [QGraphicsEllipseItem]: its
    rectangle, its position in the parent's frame and its rotation, in
    degrees, stored as given. *)
Record Item : Type := mkItem { rect : QRectF; pos : QPointF; rotation : R }.

(** Constructor: position [(0, 0)], rotation [0]. *)
Definition newItem (r : QRectF) : Item := mkItem r (mkPoint 0 0) 0.

Definition setRect (r : QRectF) (i : Item) : Item :=
  mkItem r (pos i) (rotation i).
Definition setPos (px py : R) (i : Item) : Item :=
  mkItem (rect i) (mkPoint px py) (rotation i).
Definition setRotation (a : R) (i : Item) : Item :=
  mkItem (rect i) (pos i) a.

End Qt.

(** ** The solver object [mpc_casadi.MPCCasadi]

    The object is built from five keyword arguments; the record keeps them,
    together with the identity of the object ([oid]): two objects built from
    equal arguments are still two objects. *)

Record MPCCasadi : Type := mkMPCCasadi {
  oid : nat;
  steps : Z;
  max_iter : Z;
  soft_constrain : bool;
  circles_num : Z;
  path_len : Z
}.

(** ** Class constants *)

Definition MAX_ANGLE : R := radians 25.
Definition MAX_RATE : R := radians 30.
Definition MAX_TRAILER_ANGLE : R := radians 30.
Definition WIDTH : R := 3.
Definition WHEEL_BASE : R := 5.
Definition TRAILER_WIDTH : R := 2.
Definition WHEEL_LEN : R := 1.
Definition WHEEL_WIDTH : R := 3 / 10.
Definition TRAILER_LEN : R := 5.
Definition TRAILER_OFFSET : R := 0.
Definition TRAILER_CTRL_POINT : R * R := (0, 3).
Definition RADIUS : R := 5.
Definition SPEED : R := 5.
Definition XTRACK_WEIGHT : R := 1.
Definition HEADING_WEIGHT : R := 30.
Definition DT : R := 1 / 10.
Definition CTRL_POINT_RADIUS : R := 3 / 10.

(** ** The instance

    [car_pos] and [car_rotation] are the group item's own [pos()] and
    [rotation()]; every other item is a child.  The trailer wheels and the
    control point are children of [trailer], so their positions are in the
    trailer's frame. *)

Record CarModel : Type := mkCar {
  speed : R;
  car_pos : Qt.QPointF;
  car_rotation : R;
  body : Qt.Item;
  front_left_wheel : Qt.Item;
  front_right_wheel : Qt.Item;
  rear_left_wheel : Qt.Item;
  rear_right_wheel : Qt.Item;
  trailer : Qt.Item;
  trailer_left_wheel : Qt.Item;
  trailer_right_wheel : Qt.Item;
  circle : Qt.Item;
  ctrl_point : Qt.Item;
  mpc : MPCCasadi
}.

(** The world a car lives in: the car, the records sent to the module logger
    [LOG] (latest first) and the number of solver objects constructed so far,
    which names the next one. *)

Record World : Type := mkWorld {
  car : CarModel;
  LOG : list string;
  allocated : nat
}.

Definition with_car (c : CarModel) (w : World) : World :=
  mkWorld c (LOG w) (allocated w).

Definition LOG_error (msg : string) (w : World) : World :=
  mkWorld (car w) (msg :: LOG w) (allocated w).

(** [CarModel.__init__]: the items first, then the solver object.  The
    argument [dt] is accepted and not used. *)
Definition init_items (solver : MPCCasadi) : CarModel :=
  let wheel := Qt.mkRect (- WHEEL_LEN / 2) (- WHEEL_WIDTH / 2) WHEEL_LEN WHEEL_WIDTH in
  {| speed := SPEED;
     car_pos := Qt.mkPoint 0 0;
     car_rotation := 0;
     body := Qt.newItem (Qt.mkRect 0 (- WIDTH / 2) WHEEL_BASE WIDTH);
     front_left_wheel := Qt.setPos WHEEL_BASE (- WIDTH / 2) (Qt.newItem wheel);
     front_right_wheel := Qt.setPos WHEEL_BASE (WIDTH / 2) (Qt.newItem wheel);
     rear_left_wheel := Qt.setPos 0 (- WIDTH / 2) (Qt.newItem wheel);
     rear_right_wheel := Qt.setPos 0 (WIDTH / 2) (Qt.newItem wheel);
     trailer :=
       Qt.newItem (Qt.mkRect (- TRAILER_LEN) (- TRAILER_WIDTH / 2) TRAILER_LEN TRAILER_WIDTH);
     trailer_left_wheel := Qt.setPos (- TRAILER_LEN) (- TRAILER_WIDTH / 2) (Qt.newItem wheel);
     trailer_right_wheel := Qt.setPos (- TRAILER_LEN) (TRAILER_WIDTH / 2) (Qt.newItem wheel);
     circle := Qt.newItem (Qt.mkRect (- RADIUS) (- RADIUS) (2 * RADIUS) (2 * RADIUS));
     ctrl_point :=
       Qt.setPos (fst TRAILER_CTRL_POINT - TRAILER_LEN) (snd TRAILER_CTRL_POINT)
         (Qt.newItem (Qt.mkRect (- CTRL_POINT_RADIUS) (- CTRL_POINT_RADIUS)
                                (2 * CTRL_POINT_RADIUS) (2 * CTRL_POINT_RADIUS)));
     mpc := solver |}.

Definition init (circles_num0 path_len0 : Z) (dt : R) (steps0 max_iter0 : Z)
    (soft_constrain0 : bool) : World :=
  mkWorld
    (init_items (mkMPCCasadi 0 steps0 max_iter0 soft_constrain0 circles_num0 path_len0))
    [] 1.

(** Field updates, one per attribute that a method assigns. *)

Definition with_body (v : Qt.Item) (c : CarModel) : CarModel :=
  mkCar (speed c) (car_pos c) (car_rotation c) v (front_left_wheel c)
    (front_right_wheel c) (rear_left_wheel c) (rear_right_wheel c) (trailer c)
    (trailer_left_wheel c) (trailer_right_wheel c) (circle c) (ctrl_point c) (mpc c).

Definition with_front_left_wheel (v : Qt.Item) (c : CarModel) : CarModel :=
  mkCar (speed c) (car_pos c) (car_rotation c) (body c) v
    (front_right_wheel c) (rear_left_wheel c) (rear_right_wheel c) (trailer c)
    (trailer_left_wheel c) (trailer_right_wheel c) (circle c) (ctrl_point c) (mpc c).

Definition with_front_right_wheel (v : Qt.Item) (c : CarModel) : CarModel :=
  mkCar (speed c) (car_pos c) (car_rotation c) (body c) (front_left_wheel c)
    v (rear_left_wheel c) (rear_right_wheel c) (trailer c)
    (trailer_left_wheel c) (trailer_right_wheel c) (circle c) (ctrl_point c) (mpc c).

Definition with_trailer (v : Qt.Item) (c : CarModel) : CarModel :=
  mkCar (speed c) (car_pos c) (car_rotation c) (body c) (front_left_wheel c)
    (front_right_wheel c) (rear_left_wheel c) (rear_right_wheel c) v
    (trailer_left_wheel c) (trailer_right_wheel c) (circle c) (ctrl_point c) (mpc c).

Definition with_trailer_left_wheel (v : Qt.Item) (c : CarModel) : CarModel :=
  mkCar (speed c) (car_pos c) (car_rotation c) (body c) (front_left_wheel c)
    (front_right_wheel c) (rear_left_wheel c) (rear_right_wheel c) (trailer c)
    v (trailer_right_wheel c) (circle c) (ctrl_point c) (mpc c).

Definition with_trailer_right_wheel (v : Qt.Item) (c : CarModel) : CarModel :=
  mkCar (speed c) (car_pos c) (car_rotation c) (body c) (front_left_wheel c)
    (front_right_wheel c) (rear_left_wheel c) (rear_right_wheel c) (trailer c)
    (trailer_left_wheel c) v (circle c) (ctrl_point c) (mpc c).

Definition with_mpc (v : MPCCasadi) (c : CarModel) : CarModel :=
  mkCar (speed c) (car_pos c) (car_rotation c) (body c) (front_left_wheel c)
    (front_right_wheel c) (rear_left_wheel c) (rear_right_wheel c) (trailer c)
    (trailer_left_wheel c) (trailer_right_wheel c) (circle c) (ctrl_point c) v.

(** [self.setPos(px, py)] and [self.setRotation(a)] on the group item. *)
Definition setPos (px py : R) (c : CarModel) : CarModel :=
  mkCar (speed c) (Qt.mkPoint px py) (car_rotation c) (body c) (front_left_wheel c)
    (front_right_wheel c) (rear_left_wheel c) (rear_right_wheel c) (trailer c)
    (trailer_left_wheel c) (trailer_right_wheel c) (circle c) (ctrl_point c) (mpc c).

Definition setRotation (a : R) (c : CarModel) : CarModel :=
  mkCar (speed c) (car_pos c) a (body c) (front_left_wheel c)
    (front_right_wheel c) (rear_left_wheel c) (rear_right_wheel c) (trailer c)
    (trailer_left_wheel c) (trailer_right_wheel c) (circle c) (ctrl_point c) (mpc c).

(** ** Geometry accessors *)

Definition set_wheel_base (wheel_base : R) (c : CarModel) : CarModel :=
  let rect := Qt.setWidth wheel_base (Qt.rect (body c)) in
  let c1 := with_body (Qt.setRect rect (body c)) c in
  let c2 := with_front_left_wheel
              (Qt.setPos wheel_base (- WIDTH / 2) (front_left_wheel c1)) c1 in
  with_front_right_wheel (Qt.setPos wheel_base (WIDTH / 2) (front_right_wheel c2)) c2.

Definition get_wheel_base (c : CarModel) : R := Qt.width (Qt.rect (body c)).

Definition set_trailer_len (trailer_len : R) (c : CarModel) : CarModel :=
  let c1 := with_trailer
              (Qt.setRect (Qt.mkRect (- trailer_len) (- TRAILER_WIDTH / 2)
                                     trailer_len TRAILER_WIDTH) (trailer c)) c in
  let c2 := with_trailer_left_wheel
              (Qt.setPos (- trailer_len) (- TRAILER_WIDTH / 2) (trailer_left_wheel c1)) c1 in
  with_trailer_right_wheel
    (Qt.setPos (- trailer_len) (TRAILER_WIDTH / 2) (trailer_right_wheel c2)) c2.

Definition get_trailer_len (c : CarModel) : R := Qt.width (Qt.rect (trailer c)).

(** [rebuild_mpc]: a new solver object replaces the old one.  As in the
    constructor, [dt] is accepted and not used. *)
Definition rebuild_mpc (circles_num0 path_len0 : Z) (dt : R) (steps0 max_iter0 : Z)
    (soft_constrain0 : bool) (w : World) : World :=
  mkWorld
    (with_mpc (mkMPCCasadi (allocated w) steps0 max_iter0 soft_constrain0
                           circles_num0 path_len0) (car w))
    (LOG w) (S (allocated w)).

(** ** Data exchanged with the solver and the kinematic model *)

(** The state vector [np.array([x, y, heading, trailer_heading])], angles in
    radians. *)
Record State : Type := mkState {
  st_x : R;
  st_y : R;
  st_heading : R;
  st_trailer_heading : R
}.

(** What [trailer_model] returns: an array that starts with the rates of the
    four state components; [move] keeps those four ([[:4]]) and drops
    whatever follows them. *)
Record Rates : Type := mkRates {
  d_x : R;
  d_y : R;
  d_heading : R;
  d_trailer_heading : R;
  d_more : list R
}.

Definition Path : Type := list (R * R).
Definition Circles : Type := list (R * R * R).

(** A horizon solution: [(states, control_angles)]. *)
Definition Solution : Type := (list State * list R)%type.

(** The sixteen positional arguments of [optimize_controls], in call order. *)
Record OptimizeArgs : Type := mkArgs {
  oc_dt : R;
  oc_path : Path;
  oc_state : State;
  oc_steering_angle : R;
  oc_speed : R;
  oc_wheel_base : R;
  oc_max_rate : R;
  oc_max_angle : R;
  oc_max_trailer_angle : R;
  oc_trailer_len : R;
  oc_trailer_offset : R;
  oc_ctrl_point : R * R;
  oc_xtrack_weight : R;
  oc_heading_weight : R;
  oc_circles : Circles;
  oc_radius : R
}.

(** The state both [predict] and [move] read off the items: the group's
    position, its rotation, and the trailer's rotation, which is relative to
    the group. *)
Definition state_of (c : CarModel) : State :=
  let heading := car_rotation c in
  mkState (Qt.x (car_pos c)) (Qt.y (car_pos c)) (radians heading)
          (radians (heading + Qt.rotation (trailer c))).

(** The argument list [predict] builds.  The time step is the class constant
    [DT]. *)
Definition predict_args (c : CarModel) (path : Path) (circles_obstacle : Circles)
    : OptimizeArgs :=
  let state := state_of c in
  let ctrl_point_pos := Qt.pos (ctrl_point c) in
  let trailer_len := Qt.width (Qt.rect (trailer c)) in
  {| oc_dt := DT;
     oc_path := path;
     oc_state := state;
     oc_steering_angle := radians (Qt.rotation (front_left_wheel c));
     oc_speed := speed c;
     oc_wheel_base := Qt.width (Qt.rect (body c));
     oc_max_rate := MAX_RATE;
     oc_max_angle := MAX_ANGLE;
     oc_max_trailer_angle := MAX_TRAILER_ANGLE;
     oc_trailer_len := trailer_len;
     oc_trailer_offset := TRAILER_OFFSET;
     oc_ctrl_point := (trailer_len - Qt.x ctrl_point_pos, Qt.y ctrl_point_pos);
     oc_xtrack_weight := XTRACK_WEIGHT;
     oc_heading_weight := HEADING_WEIGHT;
     oc_circles := circles_obstacle;
     oc_radius := Qt.width (Qt.rect (circle c)) / 2 |}.

(** [state += rates[:4] * dt] *)
Definition state_iadd (state : State) (rates : Rates) (dt : R) : State :=
  mkState (st_x state + d_x rates * dt)
          (st_y state + d_y rates * dt)
          (st_heading state + d_heading rates * dt)
          (st_trailer_heading state + d_trailer_heading rates * dt).

Section Executor.

(** [self.mpc.optimize_controls(...)]: returns a solution or raises. *)
Variable optimize_controls : MPCCasadi -> OptimizeArgs -> result Solution.

(** [turning(state, speed, steering_angle, wheel_base,
    trailer_len, trailer_offset)]. *)
Variable trailer_model : State -> R -> R -> R -> R -> R -> Rates.

Definition predict (c : CarModel) (path : Path) (circles_obstacle : Circles)
    : result Solution :=
  optimize_controls (mpc c) (predict_args c path circles_obstacle).

(** [move].  A [ValueError] out of [predict] is logged and answered with
    [None]; any other exception propagates.  [solution[1][1]] raises
    [IndexError] on a control sequence of fewer than two entries, before
    anything is written. *)
Definition move (dt : R) (line : Path) (circles_obstacle : Circles) (w : World)
    : result (option Solution) * World :=
  let c := car w in
  match predict c line circles_obstacle with
  | Raise (ValueError msg) => (Ok None, LOG_error msg w)
  | Raise e => (Raise e, w)
  | Ok solution =>
      let state := state_of c in
      match nth_error (snd solution) 1 with
      | None => (Raise (IndexError "index 1 is out of bounds"), w)
      | Some steering_angle =>
          let state :=
            state_iadd state
              (trailer_model state (speed c) steering_angle
                 (Qt.width (Qt.rect (body c))) (Qt.width (Qt.rect (trailer c))) 0)
              dt in
          let c := with_front_left_wheel
                     (Qt.setRotation (degrees steering_angle) (front_left_wheel c)) c in
          let c := with_front_right_wheel
                     (Qt.setRotation (degrees steering_angle) (front_right_wheel c)) c in
          let c := setPos (st_x state) (st_y state) c in
          let c := setRotation (degrees (st_heading state)) c in
          let c := with_trailer
                     (Qt.setRotation
                        (degrees (st_trailer_heading state - st_heading state))
                        (trailer c)) c in
          (Ok (Some solution), with_car c w)
      end
  end.

End Executor.

(** ** Fixtures: a car as constructed, solvers, plans *)

Definition world0 : World := init 0 2 DT 10 100 false.

(** A solver that finds no solution. *)
Definition infeasible (_ : MPCCasadi) (_ : OptimizeArgs) : result Solution :=
  Raise (ValueError "Infeasible_Problem_Detected").

(** A solver that answers with a given solution. *)
Definition answers (sol : Solution) (_ : MPCCasadi) (_ : OptimizeArgs)
    : result Solution :=
  Ok sol.

(** A solver that reports, as the control at index 1, the time step it was
    handed. *)
Definition echo_dt (_ : MPCCasadi) (a : OptimizeArgs) : result Solution :=
  Ok ([], [0; oc_dt a]).

(** A plan of three states and three controls. *)
Definition plan0 : Solution :=
  ([mkState 0 0 0 0; mkState (1 / 2) 0 0 0; mkState 1 0 0 0], [0; 1 / 4; 1 / 8]).


(** A model that turns tractor and trailer by 20 degrees per second, and a
    car that stands at 350 degrees. *)
Definition turning (_ : State) (_ _ _ _ _ : R) : Rates :=
  mkRates 0 0 (radians 20) (radians 20) [].

Definition world350 : World := with_car (setRotation 350 (car world0)) world0.

(** ** Auxiliary notions for the statements *)

(** The rates [move] integrates: the model at the state read before the
    update, at the car's speed, the chosen steering angle and the car's
    dimensions, with trailer offset [0]. *)
Definition tick_rates (trailer_model : State -> R -> R -> R -> R -> R -> Rates)
    (c : CarModel) (steering_angle : R) : Rates :=
  trailer_model (state_of c) (speed c) steering_angle
    (get_wheel_base c) (get_trailer_len c) 0.

(** Every solver object in use was constructed before now. *)
Definition solver_allocated (w : World) : Prop :=
  (oid (mpc (car w)) < allocated w)%nat.

(** ** Sequences of method calls

    What a caller can do to a constructed car: change a dimension, rebuild
    the solver, or tick.  [do_call] performs one call and keeps the world it
    leaves; [run] performs a list of calls in order. *)

Inductive call : Type :=
| Call_set_wheel_base (wheel_base : R)
| Call_set_trailer_len (trailer_len : R)
| Call_rebuild_mpc (circles_num0 path_len0 : Z) (dt : R) (steps0 max_iter0 : Z)
    (soft_constrain0 : bool)
| Call_move (dt : R) (line : Path) (circles_obstacle : Circles).

Definition do_call (oc : MPCCasadi -> OptimizeArgs -> result Solution)
    (tm : State -> R -> R -> R -> R -> R -> Rates) (k : call) (w : World) : World :=
  match k with
  | Call_set_wheel_base b => with_car (set_wheel_base b (car w)) w
  | Call_set_trailer_len l => with_car (set_trailer_len l (car w)) w
  | Call_rebuild_mpc cn pl dt st mi sc => rebuild_mpc cn pl dt st mi sc w
  | Call_move dt line circles => snd (move oc tm dt line circles w)
  end.

Definition run (oc : MPCCasadi -> OptimizeArgs -> result Solution)
    (tm : State -> R -> R -> R -> R -> R -> Rates) (ks : list call) (w : World) : World :=
  fold_left (fun w k => do_call oc tm k w) ks w.

Definition is_rebuild (k : call) : bool :=
  match k with Call_rebuild_mpc _ _ _ _ _ _ => true | _ => false end.

Definition is_move (k : call) : bool :=
  match k with Call_move _ _ _ => true | _ => false end.

(** The items that depend on a dimension sit where that dimension puts them:
    the front wheels at the front end of the body, the trailer rectangle and
    its wheels at the trailer length behind the hitch. *)
Definition wheels_follow_geometry (c : CarModel) : Prop :=
  Qt.pos (front_left_wheel c) = Qt.mkPoint (get_wheel_base c) (- WIDTH / 2) /\
  Qt.pos (front_right_wheel c) = Qt.mkPoint (get_wheel_base c) (WIDTH / 2) /\
  Qt.rect (trailer c)
    = Qt.mkRect (- get_trailer_len c) (- TRAILER_WIDTH / 2) (get_trailer_len c)
        TRAILER_WIDTH /\
  Qt.pos (trailer_left_wheel c)
    = Qt.mkPoint (- get_trailer_len c) (- TRAILER_WIDTH / 2) /\
  Qt.pos (trailer_right_wheel c)
    = Qt.mkPoint (- get_trailer_len c) (TRAILER_WIDTH / 2).

(** What no method writes after construction, and what the methods that
    write keep in step. *)
Definition as_built (c : CarModel) : Prop :=
  wheels_follow_geometry c /\
  Qt.rotation (front_left_wheel c) = Qt.rotation (front_right_wheel c) /\
  speed c = SPEED /\
  Qt.rect (body c) = Qt.mkRect 0 (- WIDTH / 2) (get_wheel_base c) WIDTH /\
  Qt.rect (circle c) = Qt.mkRect (- RADIUS) (- RADIUS) (2 * RADIUS) (2 * RADIUS) /\
  Qt.pos (ctrl_point c)
    = Qt.mkPoint (fst TRAILER_CTRL_POINT - TRAILER_LEN) (snd TRAILER_CTRL_POINT).

(** ** Unit conversion *)

Lemma radians_degrees (a : R) : radians (degrees a) = a.
Proof. unfold radians, degrees. field. apply PI_neq0. Qed.

Lemma degrees_radians (a : R) : degrees (radians a) = a.
Proof. unfold radians, degrees. field. apply PI_neq0. Qed.

Lemma radians_plus (a b : R) : radians (a + b) = radians a + radians b.
Proof. unfold radians. ring. Qed.

Lemma degrees_plus (a b : R) : degrees (a + b) = degrees a + degrees b.
Proof. unfold degrees. ring. Qed.

Lemma degrees_minus (a b : R) : degrees (a - b) = degrees a - degrees b.
Proof. unfold degrees. ring. Qed.

Lemma degrees_inj (a b : R) : degrees a = degrees b -> a = b.
Proof.
  intros H. rewrite <- (radians_degrees a), <- (radians_degrees b).
  now rewrite H.
Qed.

(** ** Geometry accessors *)

Lemma get_set_wheel_base (b : R) (c : CarModel) :
  get_wheel_base (set_wheel_base b c) = b.
Proof. reflexivity. Qed.

Lemma get_set_trailer_len (l : R) (c : CarModel) :
  get_trailer_len (set_trailer_len l c) = l.
Proof. reflexivity. Qed.

(** C9. After [set_wheel_base w], [get_wheel_base] returns [w]; after
    [set_trailer_len l], [get_trailer_len] returns [l]; for every positive
    [w] and [l]. *)
Theorem geometry_accessors_round_trip (c : CarModel) (w l : R) :
  0 < w -> 0 < l ->
  get_wheel_base (set_wheel_base w c) = w /\
  get_trailer_len (set_trailer_len l c) = l.
Proof.
  intros _ _. split.
  - apply get_set_wheel_base.
  - apply get_set_trailer_len.
Qed.

Lemma geometry_accessors_round_trip_witness :
  get_wheel_base (set_wheel_base 7 (car world0)) = 7 /\
  get_trailer_len (set_trailer_len 9 (car world0)) = 9.
Proof. apply geometry_accessors_round_trip; lra. Defined.

(** The two setters do not disturb each other's dimension. *)
Lemma set_trailer_len_keeps_wheel_base (l : R) (c : CarModel) :
  get_wheel_base (set_trailer_len l c) = get_wheel_base c.
Proof. reflexivity. Qed.

Lemma set_wheel_base_keeps_trailer_len (b : R) (c : CarModel) :
  get_trailer_len (set_wheel_base b c) = get_trailer_len c.
Proof. reflexivity. Qed.

(** ** One tick *)

Section MoveProperties.

Variable optimize_controls : MPCCasadi -> OptimizeArgs -> result Solution.
Variable trailer_model : State -> R -> R -> R -> R -> R -> Rates.

(** Case analysis on the two places where [move] branches. *)
Ltac move_cases :=
  unfold move, predict;
  match goal with
  | |- context [optimize_controls ?m ?a] =>
      let E := fresh "Esolve" in
      let sts := fresh "sts" in
      let ctl := fresh "ctl" in
      destruct (optimize_controls m a) as [[sts ctl] | []] eqn:E; cbn [snd fst];
      [ let En := fresh "Ectl" in
        let v := fresh "v" in
        destruct (nth_error ctl 1) as [v |] eqn:En | | | ]
  end.

(** What a tick that returns a solution did: the solution is the solver's,
    and the items were written from the control at index 1. *)
Lemma move_returns_solution dt line circles w sol w' :
  move optimize_controls trailer_model dt line circles w = (Ok (Some sol), w') ->
  optimize_controls (mpc (car w)) (predict_args (car w) line circles) = Ok sol /\
  exists u,
    nth_error (snd sol) 1 = Some u /\
    let s := state_of (car w) in
    let d := tick_rates trailer_model (car w) u in
    car_pos (car w') = Qt.mkPoint (st_x s + d_x d * dt) (st_y s + d_y d * dt) /\
    car_rotation (car w') = degrees (st_heading s + d_heading d * dt) /\
    Qt.rotation (trailer (car w')) =
      degrees ((st_trailer_heading s + d_trailer_heading d * dt)
               - (st_heading s + d_heading d * dt)) /\
    Qt.rotation (front_left_wheel (car w')) = degrees u /\
    Qt.rotation (front_right_wheel (car w')) = degrees u.
Proof.
  move_cases; intros H; inversion H; subst; clear H.
  split; [reflexivity |].
  eexists. split; [eassumption |].
  cbn. repeat split; reflexivity.
Qed.

(** Conversely, a solver answer with a control at index 1 makes the tick
    return. *)
Lemma move_succeeds dt line circles w sol u :
  optimize_controls (mpc (car w)) (predict_args (car w) line circles) = Ok sol ->
  nth_error (snd sol) 1 = Some u ->
  exists w', move optimize_controls trailer_model dt line circles w = (Ok (Some sol), w').
Proof.
  intros Hs Hu. unfold move, predict. rewrite Hs, Hu.
  eexists. reflexivity.
Qed.

(** The state read back after a successful tick. *)
Lemma state_after_tick dt line circles w sol w' :
  move optimize_controls trailer_model dt line circles w = (Ok (Some sol), w') ->
  exists u,
    nth_error (snd sol) 1 = Some u /\
    state_of (car w') = state_iadd (state_of (car w)) (tick_rates trailer_model (car w) u) dt.
Proof.
  intros H. apply move_returns_solution in H.
  destruct H as [_ [u [Hu [Hp [Hr [Ht _]]]]]].
  exists u. split; [exact Hu |].
  unfold state_of at 1, state_iadd.
  rewrite Hp, Hr, Ht. cbn [Qt.x Qt.y].
  rewrite <- degrees_plus, !radians_degrees.
  f_equal. ring.
Qed.

(** C1. If the solve raises [ValueError], [move] returns [None] and the car
    is the car it was: position, tractor heading, trailer heading and
    steering angle are untouched.  The error message is logged. *)
Theorem move_infeasible_is_noop dt line circles w msg :
  optimize_controls (mpc (car w)) (predict_args (car w) line circles)
    = Raise (ValueError msg) ->
  fst (move optimize_controls trailer_model dt line circles w) = Ok None /\
  car (snd (move optimize_controls trailer_model dt line circles w)) = car w /\
  state_of (car (snd (move optimize_controls trailer_model dt line circles w))) = state_of (car w) /\
  Qt.rotation (front_left_wheel (car (snd (move optimize_controls trailer_model dt line circles w))))
    = Qt.rotation (front_left_wheel (car w)) /\
  Qt.rotation (front_right_wheel (car (snd (move optimize_controls trailer_model dt line circles w))))
    = Qt.rotation (front_right_wheel (car w)) /\
  LOG (snd (move optimize_controls trailer_model dt line circles w)) = msg :: LOG w.
Proof.
  intros H. unfold move, predict. rewrite H. cbn.
  repeat split; reflexivity.
Qed.

(** C2. A successful tick is one explicit Euler step: the state read after
    the tick is the state read before it plus [dt] times the model's rates
    at that earlier state, at the car's speed and at the steering angle the
    tick chose; and the speed itself is not changed. *)
Theorem move_is_one_euler_step dt line circles w sol w' :
  move optimize_controls trailer_model dt line circles w = (Ok (Some sol), w') ->
  exists u,
    nth_error (snd sol) 1 = Some u /\
    let s := state_of (car w) in
    let d := trailer_model s (speed (car w)) u
               (get_wheel_base (car w)) (get_trailer_len (car w)) 0 in
    st_x (state_of (car w')) = st_x s + dt * d_x d /\
    st_y (state_of (car w')) = st_y s + dt * d_y d /\
    st_heading (state_of (car w')) = st_heading s + dt * d_heading d /\
    st_trailer_heading (state_of (car w'))
      = st_trailer_heading s + dt * d_trailer_heading d /\
    speed (car w') = speed (car w).
Proof.
  intros H. destruct (state_after_tick _ _ _ _ _ _ H) as [u [Hu Hs]].
  exists u. split; [exact Hu |]. cbn zeta. rewrite Hs.
  unfold state_iadd, tick_rates. cbn [st_x st_y st_heading st_trailer_heading].
  repeat split; try apply Rplus_eq_compat_l, Rmult_comm.
  revert H. move_cases; intros H; inversion H; reflexivity.
Qed.

End MoveProperties.

(** ** Which control is applied, and what is returned *)

Lemma move_at_solution oc tm dt line circles w sol u :
  oc (mpc (car w)) (predict_args (car w) line circles) = Ok sol ->
  nth_error (snd sol) 1 = Some u ->
  move oc tm dt line circles w =
    (Ok (Some sol),
     with_car
       (let s := state_iadd (state_of (car w)) (tick_rates tm (car w) u) dt in
        with_trailer
          (Qt.setRotation (degrees (st_trailer_heading s - st_heading s))
             (trailer (car w)))
          (setRotation (degrees (st_heading s))
             (setPos (st_x s) (st_y s)
                (with_front_right_wheel
                   (Qt.setRotation (degrees u) (front_right_wheel (car w)))
                   (with_front_left_wheel
                      (Qt.setRotation (degrees u) (front_left_wheel (car w)))
                      (car w))))))
       w).
Proof.
  intros Hs Hu. unfold move, predict. rewrite Hs, Hu. reflexivity.
Qed.



(** The initial entry is not what is applied: with the controls
    [[0; 1/4; 1/8]] the wheels are turned to [1/4] rad, the entry at index 1,
    not to the entry [0] at index 0. *)
Lemma first_entry_is_not_the_steering :
  fst (move (answers plan0) turning DT [] [] world0)
    = Ok (Some plan0) /\
  nth_error (snd plan0) 0 = Some 0 /\
  Qt.rotation (front_left_wheel
    (car (snd (move (answers plan0) turning DT [] [] world0))))
    = degrees (1 / 4) /\
  Qt.rotation (front_left_wheel
    (car (snd (move (answers plan0) turning DT [] [] world0))))
    <> degrees 0.
Proof.
  repeat split; try reflexivity.
  cbn. intros H. apply degrees_inj in H. lra.
Qed.

(** C7. When the solve succeeds, [move] returns the solver's solution as it
    is: every predicted state and every predicted control. *)
Theorem move_returns_full_solution oc tm dt line circles w sol u :
  oc (mpc (car w)) (predict_args (car w) line circles) = Ok sol ->
  nth_error (snd sol) 1 = Some u ->
  fst (move oc tm dt line circles w) = Ok (Some sol).
Proof.
  intros Hs Hu. rewrite (move_at_solution oc tm dt line circles w sol u Hs Hu).
  reflexivity.
Qed.

Lemma move_returns_full_solution_witness :
  fst (move (answers plan0) turning DT [] [] world0)
    = Ok (Some plan0).
Proof.
  apply (move_returns_full_solution (answers plan0) turning
           DT [] [] world0 plan0 (1 / 4)); reflexivity.
Defined.

Lemma move_infeasible_is_noop_witness :
  fst (move infeasible turning DT [] [] world0) = Ok None /\
  car (snd (move infeasible turning DT [] [] world0)) = car world0.
Proof.
  pose proof (move_infeasible_is_noop infeasible turning DT [] []
                world0 "Infeasible_Problem_Detected" eq_refl) as [H1 [H2 _]].
  split; assumption.
Defined.

Lemma move_is_one_euler_step_witness :
  exists u,
    nth_error (snd plan0) 1 = Some u /\
    st_x (state_of (car (snd (move (answers plan0) turning
                                (1 / 2) [] [] world0))))
      = st_x (state_of (car world0))
        + 1 / 2 * d_x (turning (state_of (car world0)) SPEED u
                         WHEEL_BASE TRAILER_LEN 0).
Proof.
  destruct (move_is_one_euler_step (answers plan0) turning
              (1 / 2) [] [] world0 plan0
              (snd (move (answers plan0) turning (1 / 2) [] [] world0))
              eq_refl) as [u [Hu [Hx _]]].
  exists u. split; [exact Hu | exact Hx].
Defined.

(** ** Time steps *)





(** ** Reconfiguration and the solver object *)

Lemma init_solver_allocated cn pl dt st mi sc :
  solver_allocated (init cn pl dt st mi sc).
Proof. unfold solver_allocated. cbn. apply Nat.lt_0_1. Qed.

Lemma rebuild_mpc_solver_allocated cn pl dt st mi sc w :
  solver_allocated (rebuild_mpc cn pl dt st mi sc w).
Proof. unfold solver_allocated. cbn. apply Nat.lt_succ_diag_r. Qed.

Lemma move_solver_allocated oc tm dt line circles w :
  solver_allocated w -> solver_allocated (snd (move oc tm dt line circles w)).
Proof.
  unfold solver_allocated, move, predict.
  destruct (oc _ _) as [[sts ctl] | []]; cbn [snd]; try (intros H; exact H).
  destruct (nth_error ctl 1); intros H; exact H.
Qed.

(** C5, as amended. Changing the wheel base or the trailer length leaves the
    solver object in place; the new dimension reaches the solver because the
    next tick reads it off the car when it builds its problem.  The solver
    object is replaced by [rebuild_mpc] alone, which installs an object
    constructed at that moment from the arguments it is given. *)
Theorem reconfiguration_keeps_solver w b l line circles cn pl dt st mi sc :
  solver_allocated w ->
  mpc (set_wheel_base b (car w)) = mpc (car w) /\
  mpc (set_trailer_len l (car w)) = mpc (car w) /\
  oc_wheel_base (predict_args (set_wheel_base b (car w)) line circles) = b /\
  oc_trailer_len (predict_args (set_trailer_len l (car w)) line circles) = l /\
  mpc (car (rebuild_mpc cn pl dt st mi sc w))
    = mkMPCCasadi (allocated w) st mi sc cn pl /\
  oid (mpc (car (rebuild_mpc cn pl dt st mi sc w))) <> oid (mpc (car w)).
Proof.
  intros Hw. repeat split. cbn.
  intros E. unfold solver_allocated in Hw. rewrite <- E in Hw.
  exact (Nat.lt_irrefl _ Hw).
Qed.

Lemma reconfiguration_keeps_solver_witness :
  mpc (set_wheel_base 7 (car world0)) = mpc (car world0) /\
  oid (mpc (car (rebuild_mpc 0 2 DT 10 100 false world0))) <> oid (mpc (car world0)).
Proof.
  pose proof (reconfiguration_keeps_solver world0 7 9 [] [] 0%Z 2%Z DT 10%Z 100%Z false
                (init_solver_allocated 0 2 DT 10 100 false)) as [H1 [_ [_ [_ [_ H6]]]]].
  split; assumption.
Defined.

(** C5, as stated, fails: after a wheel-base change and after a
    trailer-length change the car holds the very solver object it held
    before, and that is the object the next tick calls. *)
Lemma reconfiguration_does_not_replace_solver :
  mpc (set_wheel_base 7 (car world0)) = mpc (car world0) /\
  mpc (set_trailer_len 9 (car world0)) = mpc (car world0) /\
  oid (mpc (set_wheel_base 7 (car world0))) = 0%nat /\
  oid (mpc (car world0)) = 0%nat /\
  predict echo_dt (set_wheel_base 7 (car world0)) [] []
    = echo_dt (mpc (car world0)) (predict_args (set_wheel_base 7 (car world0)) [] []).
Proof. repeat split. Qed.

(** ** Frame of [move] *)

(** C10. Whatever its outcome, [move] leaves the solver object, the wheel
    base, the trailer length, the control point and the bounding circle as
    they were, and likewise every rectangle and every item position, the
    speed and the allocation count.  What it may write is the group's
    position and rotation and the rotations of the trailer and of the two
    front wheels. *)
Theorem move_frame oc tm dt line circles w :
  let c := car w in
  let c' := car (snd (move oc tm dt line circles w)) in
  mpc c' = mpc c /\
  get_wheel_base c' = get_wheel_base c /\
  get_trailer_len c' = get_trailer_len c /\
  ctrl_point c' = ctrl_point c /\
  circle c' = circle c /\
  body c' = body c /\
  rear_left_wheel c' = rear_left_wheel c /\
  rear_right_wheel c' = rear_right_wheel c /\
  trailer_left_wheel c' = trailer_left_wheel c /\
  trailer_right_wheel c' = trailer_right_wheel c /\
  Qt.rect (trailer c') = Qt.rect (trailer c) /\
  Qt.pos (trailer c') = Qt.pos (trailer c) /\
  Qt.rect (front_left_wheel c') = Qt.rect (front_left_wheel c) /\
  Qt.pos (front_left_wheel c') = Qt.pos (front_left_wheel c) /\
  Qt.rect (front_right_wheel c') = Qt.rect (front_right_wheel c) /\
  Qt.pos (front_right_wheel c') = Qt.pos (front_right_wheel c) /\
  speed c' = speed c /\
  allocated (snd (move oc tm dt line circles w)) = allocated w.
Proof.
  unfold move, predict.
  destruct (oc _ _) as [[sts ctl] | []]; cbn [snd];
    [ destruct (nth_error ctl 1) | | | ]; cbn; repeat split.
Qed.

(** ** Headings are stored as they come *)

(** C8. After a successful tick the stored tractor rotation is the one stored
    before plus the Euler increment in degrees, and so is the trailer's
    heading (group rotation plus trailer rotation); read back in radians they
    are the Euler-updated headings.  Nothing is reduced modulo a turn. *)
Theorem headings_are_not_wrapped oc tm dt line circles w sol w' :
  move oc tm dt line circles w = (Ok (Some sol), w') ->
  exists u,
    nth_error (snd sol) 1 = Some u /\
    let d := tick_rates tm (car w) u in
    car_rotation (car w') = car_rotation (car w) + degrees (dt * d_heading d) /\
    car_rotation (car w') + Qt.rotation (trailer (car w'))
      = car_rotation (car w) + Qt.rotation (trailer (car w))
        + degrees (dt * d_trailer_heading d) /\
    st_heading (state_of (car w'))
      = st_heading (state_of (car w)) + dt * d_heading d /\
    st_trailer_heading (state_of (car w'))
      = st_trailer_heading (state_of (car w)) + dt * d_trailer_heading d.
Proof.
  intros H.
  destruct (move_returns_solution _ _ _ _ _ _ _ _ H) as [_ [u [Hu [_ [Hr [Ht _]]]]]].
  destruct (state_after_tick _ _ _ _ _ _ _ _ H) as [u' [Hu' Hs]].
  rewrite Hu in Hu'. injection Hu' as <-.
  exists u. split; [exact Hu |]. cbn zeta.
  rewrite Hs, Ht, Hr. cbn [state_iadd st_heading st_trailer_heading state_of].
  rewrite !degrees_minus, !degrees_plus, !degrees_radians.
  repeat split; try ring.
  - rewrite (Rmult_comm dt). ring.
  - rewrite (Rmult_comm dt). ring.
Qed.

Lemma headings_are_not_wrapped_witness :
  exists u,
    nth_error (snd plan0) 1 = Some u /\
    car_rotation (car (snd (move (answers plan0) turning 1 [] [] world350)))
      = 350 + degrees (1 * d_heading (tick_rates turning (car world350) u)).
Proof.
  destruct (headings_are_not_wrapped (answers plan0) turning 1 [] [] world350 plan0
              (snd (move (answers plan0) turning 1 [] [] world350))
              eq_refl) as [u [Hu [Hr _]]].
  exists u. split; [exact Hu | exact Hr].
Defined.

(** A tractor at 350 degrees that turns by 20 degrees is stored at 370
    degrees, not at 10. *)
Example rotation_past_a_full_turn :
  car_rotation (car (snd (move (answers plan0) turning 1 [] [] world350))) = 370.
Proof.
  cbn. rewrite Rmult_1_r, <- radians_plus, degrees_radians. lra.
Qed.

(** ** Outcomes of [move] beyond success and infeasibility *)

(** X1. A solution whose control sequence has fewer than two entries makes
    [solution[1][1]] raise [IndexError]; the exception leaves [move] and
    nothing has been written or logged. *)
Theorem move_short_controls_raise oc tm dt line circles w sol :
  oc (mpc (car w)) (predict_args (car w) line circles) = Ok sol ->
  (List.length (snd sol) < 2)%nat ->
  exists msg, move oc tm dt line circles w = (Raise (IndexError msg), w).
Proof.
  intros Hs Hlen. unfold move, predict. rewrite Hs.
  assert (Hn : nth_error (snd sol) 1 = None).
  { apply nth_error_None. apply Nat.lt_succ_r. exact Hlen. }
  rewrite Hn. eexists. reflexivity.
Qed.

Lemma move_short_controls_raise_witness :
  exists msg,
    move (answers ([mkState 0 0 0 0], [1 / 4])) turning DT [] [] world0
      = (Raise (IndexError msg), world0).
Proof.
  apply (move_short_controls_raise (answers ([mkState 0 0 0 0], [1 / 4])) turning
           DT [] [] world0 ([mkState 0 0 0 0], [1 / 4]) eq_refl).
  cbn. apply Nat.lt_succ_diag_r.
Defined.

(** X2. Only [ValueError] is caught: any other exception out of the solver
    leaves [move] as it is, with the world unchanged and nothing logged. *)
Theorem move_propagates_other_errors oc tm dt line circles w e :
  oc (mpc (car w)) (predict_args (car w) line circles) = Raise e ->
  (forall msg, e <> ValueError msg) ->
  move oc tm dt line circles w = (Raise e, w).
Proof.
  intros Hs Hne. unfold move, predict. rewrite Hs.
  destruct e as [msg | msg | msg]; try reflexivity.
  exfalso. exact (Hne msg eq_refl).
Qed.

Lemma move_propagates_other_errors_witness :
  move (fun _ _ => Raise (OtherError "solver crashed")) turning DT [] [] world0
    = (Raise (OtherError "solver crashed"), world0).
Proof.
  apply (move_propagates_other_errors
           (fun _ _ => Raise (OtherError "solver crashed")) turning DT [] [] world0
           (OtherError "solver crashed") eq_refl).
  intros msg H. discriminate H.
Defined.

(** X3. [move] returns [None] exactly when the solver raised [ValueError]. *)
Theorem move_none_iff_value_error oc tm dt line circles w :
  fst (move oc tm dt line circles w) = Ok None <->
  exists msg,
    oc (mpc (car w)) (predict_args (car w) line circles) = Raise (ValueError msg).
Proof.
  unfold move, predict.
  destruct (oc _ _) as [[sts ctl] | [msg | msg | msg]]; cbn [snd fst].
  - destruct (nth_error ctl 1); split; intros H;
      try discriminate H; destruct H as [m H]; discriminate H.
  - split; [intros _; exists msg; reflexivity | reflexivity].
  - split; intros H; [discriminate H | destruct H as [m H]; discriminate H].
  - split; intros H; [discriminate H | destruct H as [m H]; discriminate H].
Qed.

(** X4. The log after a tick: the message of a caught [ValueError] is added, and
    on every other outcome the log is the one before. *)
Theorem move_logs_caught_errors_only oc tm dt line circles w :
  LOG (snd (move oc tm dt line circles w)) =
    match oc (mpc (car w)) (predict_args (car w) line circles) with
    | Raise (ValueError msg) => msg :: LOG w
    | _ => LOG w
    end.
Proof.
  unfold move, predict.
  destruct (oc _ _) as [[sts ctl] | [msg | msg | msg]]; cbn [snd]; try reflexivity.
  destruct (nth_error ctl 1); reflexivity.
Qed.

(** ** How the geometry setters compose *)

(** X5. The last write of a dimension wins, and the two setters commute: the car
    after [set_wheel_base] and [set_trailer_len] is the same in either
    order. *)
Theorem setters_overwrite_and_commute (c : CarModel) (b1 b2 l1 l2 : R) :
  set_wheel_base b2 (set_wheel_base b1 c) = set_wheel_base b2 c /\
  set_trailer_len l2 (set_trailer_len l1 c) = set_trailer_len l2 c /\
  set_wheel_base b1 (set_trailer_len l1 c) = set_trailer_len l1 (set_wheel_base b1 c).
Proof. repeat split. Qed.

(** X6. Writing back the dimension a car reports changes nothing, provided its
    wheels and trailer rectangle sit where the setters put them. *)
Theorem set_current_geometry_is_identity (c : CarModel) :
  wheels_follow_geometry c ->
  set_wheel_base (get_wheel_base c) c = c /\
  set_trailer_len (get_trailer_len c) c = c.
Proof.
  intros [Hfl [Hfr [Htr [Htl Htrw]]]].
  destruct c as [sp cp cr bd fl fr rl rr tr tl trr ci ct m].
  unfold get_wheel_base, get_trailer_len in *. cbn in *.
  destruct bd as [[bx by_ bw bh] bp br].
  destruct fl as [flr flp flo], fr as [frr frp fro].
  destruct tr as [[tx ty tw th] tp trot], tl as [tlr tlp tlo], trr as [trrr trrp trro].
  cbn in *. inversion Htr; subst.
  split; reflexivity.
Qed.

Lemma set_current_geometry_is_identity_witness :
  set_wheel_base (get_wheel_base (car world0)) (car world0) = car world0 /\
  set_trailer_len (get_trailer_len (car world0)) (car world0) = car world0.
Proof.
  apply (set_current_geometry_is_identity (car world0)).
  repeat split.
Defined.

(** Without that proviso the identity fails: on a car whose front wheels
    were placed elsewhere, [set_wheel_base] moves them. *)
Example set_current_wheel_base_moves_stray_wheels :
  let c := with_front_left_wheel (Qt.setPos 0 0 (front_left_wheel (car world0)))
             (car world0) in
  set_wheel_base (get_wheel_base c) c <> c.
Proof.
  cbn zeta. intros H.
  apply (f_equal (fun c => Qt.x (Qt.pos (front_left_wheel c)))) in H.
  cbn in H. unfold WHEEL_BASE in H. lra.
Qed.

(** ** What a reconfiguration changes in the next problem *)

(** X7. After a wheel-base change the problem [predict] builds differs from the
    one before in the wheel base alone. *)
Theorem problem_after_set_wheel_base (c : CarModel) (b : R) path circles :
  predict_args (set_wheel_base b c) path circles =
    let a := predict_args c path circles in
    mkArgs (oc_dt a) (oc_path a) (oc_state a) (oc_steering_angle a) (oc_speed a)
      b (oc_max_rate a) (oc_max_angle a) (oc_max_trailer_angle a)
      (oc_trailer_len a) (oc_trailer_offset a) (oc_ctrl_point a)
      (oc_xtrack_weight a) (oc_heading_weight a) (oc_circles a) (oc_radius a).
Proof. reflexivity. Qed.

(** X8. After a trailer-length change the problem differs in the trailer length
    and in the control point: the control-point item is not moved with the
    trailer's rear end, so the longitudinal offset handed to the solver
    shifts by the change of length. *)
Theorem problem_after_set_trailer_len (c : CarModel) (l : R) path circles :
  predict_args (set_trailer_len l c) path circles =
    let a := predict_args c path circles in
    mkArgs (oc_dt a) (oc_path a) (oc_state a) (oc_steering_angle a) (oc_speed a)
      (oc_wheel_base a) (oc_max_rate a) (oc_max_angle a) (oc_max_trailer_angle a)
      l (oc_trailer_offset a)
      (fst (oc_ctrl_point a) + (l - oc_trailer_len a), snd (oc_ctrl_point a))
      (oc_xtrack_weight a) (oc_heading_weight a) (oc_circles a) (oc_radius a).
Proof.
  unfold predict_args. cbn. f_equal. f_equal. ring.
Qed.

(** X9. After [rebuild_mpc] the next [predict] puts the same problem as before
    to the newly built solver object, which carries the five arguments given
    and a new identity; [dt] plays no part. *)
Theorem predict_after_rebuild_mpc oc cn pl dt st mi sc w path circles :
  predict oc (car (rebuild_mpc cn pl dt st mi sc w)) path circles =
    oc (mkMPCCasadi (allocated w) st mi sc cn pl) (predict_args (car w) path circles).
Proof. reflexivity. Qed.

(** X10. The problem of the first tick of a car as constructed: the pose is the
    origin, the steering angle zero, the dimensions are the class defaults,
    the bounding radius is [RADIUS], and the control point is
    [(2 * TRAILER_LEN - TRAILER_CTRL_POINT[0], TRAILER_CTRL_POINT[1])]. *)
Theorem first_problem cn pl dt st mi sc path circles :
  predict_args (car (init cn pl dt st mi sc)) path circles =
    mkArgs DT path (mkState 0 0 0 0) 0 SPEED WHEEL_BASE MAX_RATE MAX_ANGLE
      MAX_TRAILER_ANGLE TRAILER_LEN TRAILER_OFFSET
      (2 * TRAILER_LEN - fst TRAILER_CTRL_POINT, snd TRAILER_CTRL_POINT)
      XTRACK_WEIGHT HEADING_WEIGHT circles RADIUS.
Proof.
  unfold predict_args, state_of. cbn.
  unfold radians, RADIUS, TRAILER_LEN.
  f_equal; try (f_equal; lra); lra.
Qed.

(** ** From one tick to the next *)



(** X12. A successful tick of duration zero leaves the pose where it was and
    still turns the front wheels to the chosen steering angle. *)
Theorem tick_of_zero_duration oc tm line circles w sol w' :
  move oc tm 0 line circles w = (Ok (Some sol), w') ->
  car_pos (car w') = car_pos (car w) /\
  car_rotation (car w') = car_rotation (car w) /\
  Qt.rotation (trailer (car w')) = Qt.rotation (trailer (car w)) /\
  exists u,
    nth_error (snd sol) 1 = Some u /\
    Qt.rotation (front_left_wheel (car w')) = degrees u /\
    Qt.rotation (front_right_wheel (car w')) = degrees u.
Proof.
  intros H.
  destruct (move_returns_solution _ _ _ _ _ _ _ _ H)
    as [_ [u [Hu [Hp [Hr [Ht [Hl Hrr]]]]]]].
  rewrite Hp, Hr, Ht. unfold state_of. cbn [st_x st_y st_heading st_trailer_heading].
  rewrite !Rmult_0_r, !Rplus_0_r.
  repeat split.
  - destruct (car_pos (car w)); reflexivity.
  - apply degrees_radians.
  - rewrite degrees_minus, !degrees_radians. ring.
  - exists u. repeat split; assumption.
Qed.

Lemma tick_of_zero_duration_witness :
  car_rotation (car (snd (move (answers plan0) turning 0 [] [] world350)))
    = car_rotation (car world350).
Proof.
  destruct (tick_of_zero_duration (answers plan0) turning [] [] world350 plan0
              (snd (move (answers plan0) turning 0 [] [] world350)) eq_refl)
    as [_ [H _]].
  exact H.
Defined.

(** ** Invariants of every sequence of calls *)

Lemma init_as_built cn pl dt st mi sc : as_built (car (init cn pl dt st mi sc)).
Proof. repeat split. Qed.

Lemma move_keeps_as_built oc tm dt line circles w :
  as_built (car w) -> as_built (car (snd (move oc tm dt line circles w))).
Proof.
  unfold move, predict.
  destruct (oc _ _) as [[sts ctl] | []]; cbn [snd]; try (intros H; exact H).
  destruct (nth_error ctl 1); intros H; [| exact H].
  destruct H as [[H1 [H2 [H3 [H4 H5]]]] [_ [H7 [H8 [H9 H10]]]]].
  repeat split; assumption.
Qed.

Lemma do_call_keeps_as_built oc tm k w :
  as_built (car w) -> as_built (car (do_call oc tm k w)).
Proof.
  destruct k as [b | l | cn pl dt st mi sc | dt line circles]; cbn [do_call].
  - intros [[H1 [H2 [H3 [H4 H5]]]] [H6 [H7 [H8 [H9 H10]]]]].
    repeat split; try assumption.
    cbn. rewrite H8. reflexivity.
  - intros [[H1 [H2 [H3 [H4 H5]]]] [H6 [H7 [H8 [H9 H10]]]]].
    repeat split; assumption.
  - intros H. exact H.
  - apply move_keeps_as_built.
Qed.

Lemma run_keeps_as_built oc tm ks w :
  as_built (car w) -> as_built (car (run oc tm ks w)).
Proof.
  revert w. induction ks as [| k ks IH]; intros w H; [exact H |].
  cbn. apply IH. apply do_call_keeps_as_built. exact H.
Qed.

(** X13. However a constructed car is reconfigured, rebuilt and ticked, its wheels
    and trailer rectangle sit where its current dimensions put them, both
    front wheels show the same steering angle, the speed is [SPEED], and the
    body's rectangle apart from its width, the bounding circle and the
    control point are those of the constructor. *)
Theorem every_run_keeps_as_built oc tm ks cn pl dt st mi sc :
  as_built (car (run oc tm ks (init cn pl dt st mi sc))).
Proof. apply run_keeps_as_built, init_as_built. Qed.

Lemma do_call_allocated oc tm k w :
  allocated (do_call oc tm k w)
    = (allocated w + (if is_rebuild k then 1 else 0))%nat.
Proof.
  destruct k as [b | l | cn pl dt st mi sc | dt line circles]; cbn [do_call is_rebuild];
    try (cbn; lia).
  unfold move, predict.
  destruct (oc _ _) as [[sts ctl] | []]; cbn [snd]; try (cbn; lia).
  destruct (nth_error ctl 1); cbn; lia.
Qed.

Lemma do_call_log oc tm k w :
  (List.length (LOG (do_call oc tm k w))
     <= List.length (LOG w) + (if is_move k then 1 else 0))%nat.
Proof.
  destruct k as [b | l | cn pl dt st mi sc | dt line circles]; cbn [do_call is_move];
    try (cbn; lia).
  unfold move, predict.
  destruct (oc _ _) as [[sts ctl] | []]; cbn [snd]; try (cbn; lia).
  destruct (nth_error ctl 1); cbn; lia.
Qed.

(** X14. Solver objects are constructed by the constructor and by [rebuild_mpc]
    and by nothing else: after any sequence of calls on a constructed car
    their number is one plus the number of [rebuild_mpc] calls, and the
    object in use is one of them. *)
Theorem solvers_are_built_by_rebuild_only oc tm ks cn pl dt st mi sc :
  allocated (run oc tm ks (init cn pl dt st mi sc))
    = S (List.length (filter is_rebuild ks)) /\
  solver_allocated (run oc tm ks (init cn pl dt st mi sc)).
Proof.
  assert (G : forall ks w,
             solver_allocated w ->
             allocated (run oc tm ks w)
               = (allocated w + List.length (filter is_rebuild ks))%nat /\
             solver_allocated (run oc tm ks w)).
  { clear ks. induction ks as [| k ks IH]; intros w Hw.
    - cbn. split; [lia | exact Hw].
    - cbn [run fold_left filter].
      assert (Hk : solver_allocated (do_call oc tm k w)).
      { destruct k as [b | l | cn' pl' dt' st' mi' sc' | dt' line circles];
          cbn [do_call].
        - exact Hw.
        - exact Hw.
        - apply rebuild_mpc_solver_allocated.
        - apply move_solver_allocated. exact Hw. }
      destruct (IH _ Hk) as [Ha Hs]. fold (run oc tm ks (do_call oc tm k w)).
      split; [| exact Hs].
      unfold run in Ha. unfold run. rewrite Ha, do_call_allocated.
      destruct (is_rebuild k); cbn; lia. }
  destruct (G ks (init cn pl dt st mi sc) (init_solver_allocated cn pl dt st mi sc))
    as [Ha Hs].
  split; [rewrite Ha; cbn; lia | exact Hs].
Qed.

(** X15. The log of a constructed car holds at most one record per [move] call
    made so far; no other method logs. *)
Theorem log_bounded_by_ticks oc tm ks cn pl dt st mi sc :
  (List.length (LOG (run oc tm ks (init cn pl dt st mi sc)))
     <= List.length (filter is_move ks))%nat.
Proof.
  assert (G : forall ks w,
             (List.length (LOG (run oc tm ks w))
                <= List.length (LOG w) + List.length (filter is_move ks))%nat).
  { clear ks. induction ks as [| k ks IH]; intros w.
    - cbn. lia.
    - cbn [run fold_left filter]. fold (run oc tm ks (do_call oc tm k w)).
      pose proof (IH (do_call oc tm k w)) as H1.
      pose proof (do_call_log oc tm k w) as H2.
      destruct (is_move k); cbn [List.length] in *; lia. }
  pose proof (G ks (init cn pl dt st mi sc)) as H. cbn in H. exact H.
Qed.
